(** * static/js/policy_tinymce_init.js

    A shallow embedding of the TinyMCE initialisation script of the policy
    admin pages, and the properties its specification states about it.

    The script is one statement: it registers a listener for the document's
    [DOMContentLoaded] event.  The listener returns at once when the global
    identifier [tinymce] is undefined and otherwise evaluates
    [tinymce.init({...})] on an object literal of eight fields.

    The model keeps what the script can observe or change of its JavaScript
    environment: the global bindings, a heap of objects addressed by
    references (the object literal is allocated there and handed over by
    reference), the completion of the listener (normal or abrupt), and a
    trace of the function calls made.  The editor library is external code:
    it is a variable of the development, free to change the store and to
    return or throw. *)

From Stdlib Require Import ZArith.
From stdpp Require Import gmap strings list fin_maps.

Local Open Scope string_scope.
Local Open Scope list_scope.
Local Open Scope nat_scope.

(** ** JavaScript values and objects *)

Definition loc := positive.

(** Language values.  Objects and functions live in the heap and are denoted
    by a reference.  Numbers are the integer-valued ones, which is all the
    script writes. *)
Inductive Value : Type :=
| VUndefined
| VNull
| VBool (b : bool)
| VNum (n : Z)
| VStr (s : string)
| VBigInt (n : Z)
| VSymbol (id : positive)
| VRef (l : loc).

(** A heap object: [props] are the properties that a property read sees
    (own or inherited, data properties only), [callable] tells whether the
    object has a call behaviour, that is, whether it is a function. *)
Record Obj : Type := mkObj {
  props : gmap string Value;
  callable : bool
}.

Record Store : Type := mkStore {
  globals : gmap string Value;
  heap : gmap loc Obj
}.

(** One function call made by the script: the function object called, the
    [this] value, the arguments, and the heap as it was when the call was
    made (what the callee sees behind the references it receives). *)
Record CallEvent : Type := mkCall {
  callee : loc;
  this_value : Value;
  call_args : list Value;
  call_heap : gmap loc Obj
}.

Record World : Type := mkWorld {
  store : Store;
  calls : list CallEvent
}.

Inductive Error : Type :=
| TypeError
| ReferenceError
| Thrown (v : Value).

Inductive Outcome (A : Type) : Type :=
| Returns (a : A)
| Throws (e : Error).
Arguments Returns {A} a.
Arguments Throws {A} e.

(** External code: the behaviour of calling the function object at a
    reference, with a [this] value and arguments, in a store. *)
Definition Library : Type := loc → Value → list Value → Store → Store * Outcome Value.

(** ** A state and exception monad for script code *)

Definition M (A : Type) : Type := World → World * Outcome A.

Definition ret {A} (a : A) : M A := λ w, (w, Returns a).

Definition throw {A} (e : Error) : M A := λ w, (w, Throws e).

Definition bind {A B} (m : M A) (k : A → M B) : M B :=
  λ w, match m w with
       | (w', Returns a) => k a w'
       | (w', Throws e) => (w', Throws e)
       end.

Notation "'let*' x ':=' m 'in' k" := (bind m (λ x, k))
  (at level 10, x name, m at level 100, k at level 200).

(** ** The operations of the language that the script uses *)

(** [typeof v]. *)
Definition typeof (h : gmap loc Obj) (v : Value) : string :=
  match v with
  | VUndefined => "undefined"
  | VNull => "object"
  | VBool _ => "boolean"
  | VNum _ => "number"
  | VStr _ => "string"
  | VBigInt _ => "bigint"
  | VSymbol _ => "symbol"
  | VRef l =>
      match h !! l with
      | Some o => if callable o then "function" else "object"
      | None => "object"
      end
  end.

(** [typeof x] for an identifier: an identifier with no binding gives
    ["undefined"] and raises nothing. *)
Definition typeof_ident (x : string) : M string :=
  λ w, match globals (store w) !! x with
       | None => ret "undefined" w
       | Some v => ret (typeof (heap (store w)) v) w
       end.

(** Reading an identifier: an identifier with no binding is a
    [ReferenceError]. *)
Definition read_ident (x : string) : M Value :=
  λ w, match globals (store w) !! x with
       | None => throw ReferenceError w
       | Some v => ret v w
       end.

(** [v.k]: a [TypeError] on [undefined] and [null]; on an object the
    property, or [undefined] when it has none by that name; on the other
    primitives [undefined], their prototypes having no property named as
    the script asks. *)
Definition get_member (v : Value) (k : string) : M Value :=
  λ w, match v with
       | VUndefined | VNull => throw TypeError w
       | VRef l =>
           match heap (store w) !! l with
           | Some o => ret (default VUndefined (props o !! k)) w
           | None => ret VUndefined w
           end
       | _ => ret VUndefined w
       end.

(** The object that an object literal denotes: its fields, no call
    behaviour. *)
Definition literal (fields : list (string * Value)) : Obj :=
  {| props := list_to_map fields; callable := false |}.

(** An object literal: a new object at a reference not in use. *)
Definition new_object (fields : list (string * Value)) : M Value :=
  λ w, let l := fresh (dom (heap (store w))) in
       let o := literal fields in
       ({| store := {| globals := globals (store w);
                       heap := <[l := o]> (heap (store w)) |};
           calls := calls w |},
        Returns (VRef l)).

Definition is_callable (h : gmap loc Obj) (v : Value) : option loc :=
  match v with
  | VRef f =>
      match h !! f with
      | Some o => if callable o then Some f else None
      | None => None
      end
  | _ => None
  end.

Section WithLibrary.

Variable lib : Library.

(** [func(args)] with a [this] value: a [TypeError] when [func] is not a
    function; otherwise the call is put on the trace and the external code
    runs. *)
Definition call (func this : Value) (args : list Value) : M Value :=
  λ w, match is_callable (heap (store w)) func with
       | None => throw TypeError w
       | Some f =>
           let ev := {| callee := f; this_value := this; call_args := args;
                        call_heap := heap (store w) |} in
           let '(s', r) := lib f this args (store w) in
           ({| store := s'; calls := calls w ++ [ev] |}, r)
       end.

(** ** The script *)

(** The object literal of the [tinymce.init] call, field by field as
    written. *)
Definition policy_config : list (string * Value) :=
  [ ("selector", VStr "textarea.tinymce-policy");
    ("menubar", VStr "file edit view insert format tools table help");
    ("plugins",
      VStr "advlist autolink lists link charmap searchreplace visualblocks visualchars fullscreen table code wordcount");
    ("toolbar",
      VStr "undo redo | blocks | bold italic underline | alignleft aligncenter alignright alignjustify | bullist numlist outdent indent | link table | removeformat | fullscreen code");
    ("toolbar_mode", VStr "sliding");
    ("height", VNum 420);
    ("branding", VBool false);
    ("convert_urls", VBool false) ].

(** The listener: [function () { if (typeof tinymce === "undefined")
    { return; } tinymce.init({...}); }].  In the call expression the member
    [tinymce.init] is read first, then the argument is evaluated, then the
    value read is checked to be a function and called. *)
Definition handler : M Value :=
  let* t := typeof_ident "tinymce" in
  if String.eqb t "undefined" then ret VUndefined
  else
    let* base := read_ident "tinymce" in
    let* func := get_member base "init" in
    let* cfg := new_object policy_config in
    let* _ := call func base [cfg] in
    ret VUndefined.

End WithLibrary.

(** ** The page: listeners and event dispatch *)

(** The part of a document the script touches: the JavaScript world, the
    listeners registered on the document, each under its event type, and
    the exceptions that listeners let escape, which the dispatch reports
    and does not rethrow. *)
Record Page : Type := mkPage {
  world : World;
  listeners : list (string * M Value);
  reported : list Error
}.

Definition addEventListener (type : string) (cb : M Value) (p : Page) : Page :=
  {| world := world p;
     listeners := listeners p ++ [(type, cb)];
     reported := reported p |}.

Definition run_listener (p : Page) (cb : M Value) : Page :=
  match cb (world p) with
  | (w', Returns _) =>
      {| world := w'; listeners := listeners p; reported := reported p |}
  | (w', Throws e) =>
      {| world := w'; listeners := listeners p; reported := reported p ++ [e] |}
  end.

Definition listeners_for (type : string) (p : Page) : list (M Value) :=
  snd <$> filter (λ tc, fst tc = type) (listeners p).

(** Dispatch of an event of a type on the document: the listeners of that
    type run in the order of their registration. *)
Definition dispatchEvent (type : string) (p : Page) : Page :=
  foldl run_listener p (listeners_for type p).

(** The script, top level:
    [document.addEventListener("DOMContentLoaded", function () {...})]. *)
Definition policy_tinymce_init (lib : Library) (p : Page) : Page :=
  addEventListener "DOMContentLoaded" (handler lib) p.

(** A page on which this script alone has run. *)
Definition loaded_page (lib : Library) (w : World) : Page :=
  policy_tinymce_init lib {| world := w; listeners := []; reported := [] |}.

(** The content-loaded signal fired [n] times. *)
Definition fire (n : nat) (p : Page) : Page :=
  Nat.iter n (dispatchEvent "DOMContentLoaded") p.

(** ** Environments *)

(** The library is usable: [tinymce] is bound to an object whose [init]
    property is a function.  Gives the function object. *)
Definition library_present (s : Store) : option loc :=
  match globals s !! "tinymce" with
  | Some (VRef t) =>
      match heap s !! t with
      | Some o => props o !! "init" ≫= is_callable (heap s)
      | None => None
      end
  | _ => None
  end.

(** The identifier is defined, as the guard of the listener tests it. *)
Definition identifier_present (s : Store) : bool :=
  match globals s !! "tinymce" with
  | None => false
  | Some v => negb (String.eqb (typeof (heap s) v) "undefined")
  end.

(** The identifier is absent: [typeof tinymce] is ["undefined"]. *)
Definition identifier_absent (w : World) : Prop :=
  (typeof_ident "tinymce" w).2 = Returns "undefined".

(** A library whose functions record nothing of their own, change nothing
    and return [undefined]: with the trace, a stub that records calls. *)
Definition stub_lib : Library := λ _ _ _ s, (s, Returns VUndefined).

(** A library whose functions throw. *)
Definition throwing_lib : Library :=
  λ _ _ _ s, (s, Throws (Thrown (VStr "init failed"))).

(** A library whose [init] takes the global [tinymce] away. *)
Definition unbinding_lib : Library :=
  λ _ _ _ s, ({| globals := delete "tinymce" (globals s); heap := heap s |},
              Returns VUndefined).

Definition world_of (g : gmap string Value) (h : gmap loc Obj) : World :=
  {| store := {| globals := g; heap := h |}; calls := [] |}.

(** No [tinymce] binding at all. *)
Definition env_absent : World := world_of ∅ ∅.

(** [var tinymce;]: bound, to [undefined]. *)
Definition env_undefined : World := world_of {[ "tinymce" := VUndefined ]} ∅.

(** [tinymce = null]. *)
Definition env_null : World := world_of {[ "tinymce" := VNull ]} ∅.

(** [tinymce = {}]. *)
Definition env_no_init : World :=
  world_of {[ "tinymce" := VRef 1%positive ]}
           {[ 1%positive := {| props := ∅; callable := false |} ]}.

(** [tinymce = { init: function ... }]. *)
Definition env_library : World :=
  world_of {[ "tinymce" := VRef 1%positive ]}
           (<[ 1%positive := {| props := {[ "init" := VRef 2%positive ]};
                                callable := false |} ]>
              {[ 2%positive := {| props := ∅; callable := true |} ]}).

(** [tinymce] is itself a function that has an [init] function. *)
Definition env_function : World :=
  world_of {[ "tinymce" := VRef 5%positive ]}
           (<[ 5%positive := {| props := {[ "init" := VRef 7%positive ]};
                                callable := true |} ]>
              {[ 7%positive := {| props := ∅; callable := true |} ]}).

(** The listeners of a page on which this script alone has run. *)
Definition script_page (lib : Library) (p : Page) : Prop :=
  listeners p = [("DOMContentLoaded", handler lib)].

(** ** What a call event says *)

(** The object passed as the one argument of a call, as the callee finds it
    in the heap. *)
Definition passed_config (ev : CallEvent) : option Obj :=
  match call_args ev with
  | [VRef l] => call_heap ev !! l
  | _ => None
  end.

Definition config_field (ev : CallEvent) (k : string) : option Value :=
  o ← passed_config ev; props o !! k.

(** The call that the listener makes in a store where the library is
    usable and [init] is the function object [f]. *)
Definition init_event (s : Store) (f : loc) : CallEvent :=
  let l := fresh (dom (heap s)) in
  {| callee := f;
     this_value := default VUndefined (globals s !! "tinymce");
     call_args := [VRef l];
     call_heap := <[l := literal policy_config]> (heap s) |}.

(** The store in which the library's [init] starts: the store of the
    listener with the configuration object added. *)
Definition store_at_call (s : Store) : Store :=
  {| globals := globals s;
     heap := <[fresh (dom (heap s)) := literal policy_config]> (heap s) |}.

(** ** The initializer seen as a state machine *)

Inductive InitState : Type :=
| NotInitialized
| Initialized.

(** The page is initialized once the entry point has been called. *)
Definition init_state (p : Page) : InitState :=
  match calls (world p) with
  | [] => NotInitialized
  | _ :: _ => Initialized
  end.

(** A run of the page: events dispatched one after the other, by type. *)
Definition run_events (types : list string) (p : Page) : Page :=
  foldl (λ q ty, dispatchEvent ty q) p types.

(** ** Libraries and runs, for the properties of whole page lifecycles *)

(** A library that keeps itself usable: whatever its functions do to the
    store, [tinymce] is afterwards still an object with an [init]
    function. *)
Definition keeps_library (lib : Library) : Prop :=
  ∀ f this args s,
    is_Some (library_present s) → is_Some (library_present (lib f this args s).1).

(** How many of the events of a run are the content-loaded signal. *)
Definition signal_count (types : list string) : nat :=
  length (filter (λ ty, ty = "DOMContentLoaded") types).

(** The store the listener ends in when it makes no call: the object
    literal is evaluated unless the guard returns or the member read on
    [undefined] or [null] fails first. *)
Definition store_without_call (s : Store) : Store :=
  match globals s !! "tinymce" with
  | None | Some VUndefined | Some VNull => s
  | Some _ => store_at_call s
  end.

(** A page on which the script has been included [k] times: each run of
    the script makes a listener of its own and registers it. *)
Definition script_included (k : nat) (lib : Library) (w : World) : Page :=
  Nat.iter k (policy_tinymce_init lib)
           {| world := w; listeners := []; reported := [] |}.

(** * Properties *)

(** ** The listener, case by case *)

Lemma fresh_heap_None (h : gmap loc Obj) : h !! fresh (dom h) = None.
Proof. apply not_elem_of_dom, is_fresh. Qed.

Lemma is_callable_Some h v f :
  is_callable h v = Some f → v = VRef f ∧ ∃ o, h !! f = Some o ∧ callable o = true.
Proof.
  destruct v; simpl; try discriminate.
  destruct (h !! l) as [o|] eqn:Hl; [|discriminate].
  destruct (callable o) eqn:Hc; [|discriminate].
  intros [= <-]. eauto.
Qed.

(** Allocation of the configuration object does not change which values
    are functions, except that a dangling reference stays no function. *)
Lemma is_callable_alloc h v o :
  callable o = false →
  is_callable (<[fresh (dom h) := o]> h) v = is_callable h v.
Proof.
  intros Ho. destruct v; simpl; try reflexivity.
  destruct (decide (l = fresh (dom h))) as [->|Hne].
  - rewrite lookup_insert_eq, fresh_heap_None, Ho. reflexivity.
  - rewrite lookup_insert_ne by congruence. reflexivity.
Qed.

Lemma library_present_Some s f :
  library_present s = Some f →
  ∃ t o, globals s !! "tinymce" = Some (VRef t) ∧ heap s !! t = Some o
         ∧ props o !! "init" = Some (VRef f)
         ∧ is_callable (heap s) (VRef f) = Some f.
Proof.
  unfold library_present.
  destruct (globals s !! "tinymce") as [[| | | | | | |t]|]; try discriminate.
  destruct (heap s !! t) as [o|] eqn:Ht; [|discriminate].
  destruct (props o !! "init") as [v|] eqn:Hi; [|discriminate].
  simpl. intros Hc. destruct (is_callable_Some _ _ _ Hc) as [-> _].
  eauto 10.
Qed.

Lemma library_identifier_present s f :
  library_present s = Some f → identifier_present s = true.
Proof.
  intros (t & o & Hg & Ht & _)%library_present_Some.
  unfold identifier_present. rewrite Hg. simpl. rewrite Ht.
  destruct (callable o); reflexivity.
Qed.

(** The guard taken: the listener is the identity on the world. *)
Lemma handler_absent lib w :
  identifier_present (store w) = false → handler lib w = (w, Returns VUndefined).
Proof.
  unfold identifier_present, handler, bind, typeof_ident, ret.
  destruct (globals (store w) !! "tinymce") as [v|]; [|reflexivity].
  intros Hv%negb_false_iff. rewrite Hv. reflexivity.
Qed.

(** The library usable: one call, then whatever the library does. *)
Lemma handler_present lib w f :
  library_present (store w) = Some f →
  handler lib w =
    let ev := init_event (store w) f in
    let r := lib f (this_value ev) (call_args ev) (store_at_call (store w)) in
    ({| store := r.1; calls := calls w ++ [ev] |},
     match r.2 with
     | Returns _ => Returns VUndefined
     | Throws e => Throws e
     end).
Proof.
  intros Hp. pose proof (library_identifier_present _ _ Hp) as Hid.
  destruct (library_present_Some _ _ Hp) as (t & o & Hg & Ht & Hi & Hc).
  unfold identifier_present in Hid. rewrite Hg in Hid.
  apply negb_true_iff in Hid.
  unfold handler, bind, typeof_ident, read_ident, get_member, new_object, call,
    ret, throw, init_event, store_at_call.
  rewrite Hg, Hid. cbn beta iota. rewrite Hg. cbn beta iota. rewrite Ht, Hi.
  cbn beta iota delta [store heap globals calls from_option id].
  rewrite is_callable_alloc, Hc by reflexivity.
  cbn beta iota delta [this_value call_args].
  destruct (lib f _ _ _) as [s' [v|e]]; reflexivity.
Qed.

(** The identifier defined to something that is no usable library: a
    [TypeError], and no call. *)
Lemma handler_unusable lib w :
  identifier_present (store w) = true →
  library_present (store w) = None →
  (handler lib w).2 = Throws TypeError ∧ calls (handler lib w).1 = calls w.
Proof.
  unfold identifier_present, library_present.
  destruct (globals (store w) !! "tinymce") as [v|] eqn:Hg; [|discriminate].
  intros Hid%negb_true_iff Hlib.
  unfold handler, bind, typeof_ident, read_ident, get_member, new_object, call,
    ret, throw.
  rewrite Hg, Hid. cbn beta iota. rewrite Hg. cbn beta iota.
  destruct v as [| | | | | | |t]; try (simpl in Hid; discriminate);
    try (split; reflexivity).
  destruct (heap (store w) !! t) as [o|] eqn:Ht; [|split; reflexivity].
  cbn beta iota delta [store heap globals calls].
  rewrite is_callable_alloc by reflexivity.
  destruct (props o !! "init") as [v|] eqn:Hi; [|split; reflexivity].
  simpl in Hlib. simpl. rewrite Hlib. split; reflexivity.
Qed.

Lemma identifier_absent_iff w :
  identifier_absent w ↔ identifier_present (store w) = false.
Proof.
  unfold identifier_absent, identifier_present, typeof_ident, ret.
  destruct (globals (store w) !! "tinymce") as [v|]; simpl; [|tauto].
  rewrite negb_false_iff, String.eqb_eq. split; [congruence|intros ->; reflexivity].
Qed.

(** The calls of one run of the listener, in every world. *)
Lemma handler_calls lib w :
  calls (handler lib w).1 =
    calls w ++ match library_present (store w) with
               | Some f => [init_event (store w) f]
               | None => []
               end.
Proof.
  destruct (library_present (store w)) as [f|] eqn:Hp.
  - rewrite (handler_present _ _ _ Hp). reflexivity.
  - rewrite app_nil_r. destruct (identifier_present (store w)) eqn:Hid.
    + apply handler_unusable; assumption.
    + rewrite handler_absent by assumption. reflexivity.
Qed.

Lemma passed_config_init_event s f :
  passed_config (init_event s f) = Some (literal policy_config).
Proof. unfold passed_config, init_event. simpl. apply lookup_insert_eq. Qed.

(** ** Dispatch on a page of this script *)

Lemma run_listener_world p cb : world (run_listener p cb) = (cb (world p)).1.
Proof. unfold run_listener. destruct (cb (world p)) as [w' [v|e]]; reflexivity. Qed.

Lemma run_listener_listeners p cb : listeners (run_listener p cb) = listeners p.
Proof. unfold run_listener. destruct (cb (world p)) as [w' [v|e]]; reflexivity. Qed.

Lemma dispatch_script lib p ty :
  script_page lib p →
  dispatchEvent ty p =
    if decide (ty = "DOMContentLoaded") then run_listener p (handler lib) else p.
Proof.
  unfold script_page, dispatchEvent, listeners_for. intros ->.
  rewrite filter_cons, filter_nil. simpl.
  destruct (decide ("DOMContentLoaded" = ty)) as [<-|Hne].
  - rewrite decide_True by reflexivity. reflexivity.
  - rewrite decide_False by congruence. reflexivity.
Qed.

Lemma loaded_script_page lib w : script_page lib (loaded_page lib w).
Proof. reflexivity. Qed.

Lemma dispatch_script_page lib p ty :
  script_page lib p → script_page lib (dispatchEvent ty p).
Proof.
  intros Hp. rewrite (dispatch_script _ _ _ Hp). case_decide; [|assumption].
  unfold script_page. rewrite run_listener_listeners. assumption.
Qed.

Lemma fire_S n p : fire (S n) p = dispatchEvent "DOMContentLoaded" (fire n p).
Proof. reflexivity. Qed.

Lemma fire_script_page lib p n : script_page lib p → script_page lib (fire n p).
Proof.
  intros Hp. induction n as [|n IH]; [assumption|].
  rewrite fire_S. apply dispatch_script_page, IH.
Qed.

Lemma run_events_snoc tys ty p :
  run_events (tys ++ [ty]) p = dispatchEvent ty (run_events tys p).
Proof. unfold run_events. rewrite foldl_snoc. reflexivity. Qed.

Lemma run_events_script_page lib tys p :
  script_page lib p → script_page lib (run_events tys p).
Proof.
  intros Hp. induction tys as [|ty tys IH] using rev_ind; [assumption|].
  rewrite run_events_snoc. apply dispatch_script_page, IH.
Qed.

(** The calls of one dispatch. *)
Lemma dispatch_calls lib p ty :
  script_page lib p →
  calls (world (dispatchEvent ty p)) =
    calls (world p) ++
      (if decide (ty = "DOMContentLoaded") then
         match library_present (store (world p)) with
         | Some f => [init_event (store (world p)) f]
         | None => []
         end
       else []).
Proof.
  intros Hp. rewrite (dispatch_script _ _ _ Hp). case_decide.
  - rewrite run_listener_world. apply handler_calls.
  - rewrite app_nil_r. reflexivity.
Qed.

(** Events of other types leave the page as it is. *)
Lemma run_events_other lib tys p :
  script_page lib p → "DOMContentLoaded" ∉ tys → run_events tys p = p.
Proof.
  intros Hp. induction tys as [|ty tys IH] using rev_ind; [reflexivity|].
  rewrite not_elem_of_app, list_elem_of_singleton. intros [Hin Hne].
  rewrite run_events_snoc, (IH Hin), (dispatch_script _ _ _ Hp).
  rewrite decide_False by congruence. reflexivity.
Qed.

(** The calls of [n] firings: at most [n], each one the call of the
    listener with the configuration object. *)
Lemma fire_events lib p n :
  script_page lib p →
  ∃ evs, calls (world (fire n p)) = calls (world p) ++ evs
         ∧ length evs ≤ n
         ∧ Forall (λ ev, passed_config ev = Some (literal policy_config)) evs.
Proof.
  intros Hp. induction n as [|n (evs & Hc & Hl & Hf)].
  - exists []. rewrite app_nil_r. repeat split; [simpl; lia|constructor].
  - rewrite fire_S, (dispatch_calls lib) by (apply fire_script_page, Hp).
    rewrite decide_True by reflexivity. rewrite Hc, <- app_assoc.
    eexists. split; [reflexivity|].
    destruct (library_present _) as [f|].
    + rewrite length_app, Forall_app, Forall_singleton. simpl.
      repeat split; [lia|assumption|apply passed_config_init_event].
    + rewrite app_nil_r. repeat split; [lia|assumption].
Qed.

(** With the library usable at each firing, every firing is one call. *)
Lemma fire_count lib p n :
  script_page lib p →
  (∀ k, k < n → is_Some (library_present (store (world (fire k p))))) →
  length (calls (world (fire n p))) = length (calls (world p)) + n.
Proof.
  intros Hp. induction n as [|n IH]; intros Hall.
  - simpl. lia.
  - rewrite fire_S, (dispatch_calls lib) by (apply fire_script_page, Hp).
    rewrite decide_True by reflexivity.
    destruct (Hall n) as [f ->]; [lia|].
    rewrite length_app, IH by (intros k Hk; apply Hall; lia). simpl. lia.
Qed.

(** ** The script on concrete environments *)

Ltac by_evaluation := vm_compute; reflexivity.

Example handler_env_absent :
  handler stub_lib env_absent = (env_absent, Returns VUndefined).
Proof. by_evaluation. Qed.

Example handler_env_undefined :
  handler stub_lib env_undefined = (env_undefined, Returns VUndefined).
Proof. by_evaluation. Qed.

Example handler_env_null :
  handler stub_lib env_null = (env_null, Throws TypeError).
Proof. by_evaluation. Qed.

(** With [tinymce = {}] the object literal is evaluated before the call
    fails: the heap has the new object, the trace has no call. *)
Example handler_env_no_init :
  (handler stub_lib env_no_init).2 = Throws TypeError
  ∧ calls (handler stub_lib env_no_init).1 = []
  ∧ heap (store (handler stub_lib env_no_init).1) !! 2%positive =
      Some (literal policy_config).
Proof. repeat split; by_evaluation. Qed.

Example handler_env_library :
  (handler stub_lib env_library).2 = Returns VUndefined
  ∧ (callee <$> calls (handler stub_lib env_library).1) = [2%positive]
  ∧ (call_args <$> calls (handler stub_lib env_library).1) = [[VRef 3%positive]].
Proof. repeat split; by_evaluation. Qed.

(** An exception of the library's [init] leaves the listener as it is. *)
Example handler_library_throws :
  (handler throwing_lib env_library).2 = Throws (Thrown (VStr "init failed"))
  ∧ length (calls (handler throwing_lib env_library).1) = 1
  ∧ reported (dispatchEvent "DOMContentLoaded" (loaded_page throwing_lib env_library)) =
      [Thrown (VStr "init failed")].
Proof. repeat split; by_evaluation. Qed.

(** A library that unbinds [tinymce] in its [init] is called at the first
    firing only. *)
Example fire_twice_unbinding_lib :
  length (calls (world (fire 2 (loaded_page unbinding_lib env_library)))) = 1.
Proof. by_evaluation. Qed.

(** ** The listener with the library usable *)

(** C1, amended.  In every world where [tinymce] is bound to an object
    whose [init] property is a function, one run of the listener calls that
    function exactly once, and the object it passes has [selector] equal to
    "textarea.tinymce-policy", [height] equal to 420 and [plugins] equal to
    the list of feature modules. *)
Theorem C1_init_called_once lib w f :
  library_present (store w) = Some f →
  ∃ ev, calls (handler lib w).1 = calls w ++ [ev]
        ∧ callee ev = f
        ∧ config_field ev "selector" = Some (VStr "textarea.tinymce-policy")
        ∧ config_field ev "height" = Some (VNum 420)
        ∧ config_field ev "plugins" =
            Some (VStr "advlist autolink lists link charmap searchreplace visualblocks visualchars fullscreen table code wordcount").
Proof.
  intros Hp. exists (init_event (store w) f).
  rewrite handler_calls, Hp. unfold config_field.
  rewrite passed_config_init_event.
  repeat split; vm_compute; reflexivity.
Qed.

Lemma C1_init_called_once_witness :
  library_present (store env_library) = Some 2%positive
  ∧ ∃ ev, calls (handler stub_lib env_library).1 = calls env_library ++ [ev]
          ∧ callee ev = 2%positive
          ∧ config_field ev "selector" = Some (VStr "textarea.tinymce-policy")
          ∧ config_field ev "height" = Some (VNum 420)
          ∧ config_field ev "plugins" =
              Some (VStr "advlist autolink lists link charmap searchreplace visualblocks visualchars fullscreen table code wordcount").
Proof.
  split; [vm_compute; reflexivity|].
  apply (C1_init_called_once stub_lib env_library 2%positive).
  vm_compute; reflexivity.
Defined.

(** C1 as stated fails: with [tinymce = null] the identifier is present
    for [typeof], and the listener makes no call. *)
Lemma C1_counterexample_null :
  ¬ identifier_absent env_null
  ∧ ¬ ∃ ev, calls (handler stub_lib env_null).1 = calls env_null ++ [ev].
Proof.
  split.
  - vm_compute. intros [=].
  - intros [ev Hev]. vm_compute in Hev. discriminate.
Qed.

(** ** The listener with the identifier absent *)

(** C2.  In every world where [typeof tinymce] is "undefined", the listener
    makes no call and leaves the world as it was; and the page is the same
    after any number of firings of the signal. *)
Theorem C2_absent_no_call_no_effect lib w :
  identifier_absent w →
  calls (handler lib w).1 = calls w
  ∧ (handler lib w).1 = w
  ∧ ∀ n, fire n (loaded_page lib w) = loaded_page lib w.
Proof.
  intros Ha%identifier_absent_iff.
  rewrite (handler_absent lib w Ha). repeat split.
  induction n as [|n IH]; [reflexivity|].
  rewrite fire_S, IH, (dispatch_script lib) by apply loaded_script_page.
  rewrite decide_True by reflexivity.
  unfold run_listener. cbn [loaded_page policy_tinymce_init addEventListener world].
  rewrite (handler_absent lib w Ha). reflexivity.
Qed.

Lemma C2_absent_no_call_no_effect_witness :
  identifier_absent env_absent
  ∧ calls (handler stub_lib env_absent).1 = calls env_absent
  ∧ (handler stub_lib env_absent).1 = env_absent
  ∧ ∀ n, fire n (loaded_page stub_lib env_absent) = loaded_page stub_lib env_absent.
Proof.
  split; [reflexivity|].
  apply (C2_absent_no_call_no_effect stub_lib env_absent). reflexivity.
Defined.

(** C3.  In every world where [typeof tinymce] is "undefined", the listener
    completes normally, and the dispatch has no exception to report. *)
Theorem C3_absent_returns_normally lib w :
  identifier_absent w →
  (handler lib w).2 = Returns VUndefined
  ∧ reported (dispatchEvent "DOMContentLoaded" (loaded_page lib w)) = [].
Proof.
  intros Ha%identifier_absent_iff. split.
  - rewrite (handler_absent lib w Ha). reflexivity.
  - rewrite (dispatch_script lib) by apply loaded_script_page.
    rewrite decide_True by reflexivity.
    unfold run_listener. cbn [loaded_page policy_tinymce_init addEventListener world].
    rewrite (handler_absent lib w Ha). reflexivity.
Qed.

Lemma C3_absent_returns_normally_witness :
  identifier_absent env_undefined
  ∧ (handler throwing_lib env_undefined).2 = Returns VUndefined
  ∧ reported (dispatchEvent "DOMContentLoaded" (loaded_page throwing_lib env_undefined)) = [].
Proof.
  split; [reflexivity|].
  apply (C3_absent_returns_normally throwing_lib env_undefined). reflexivity.
Defined.

(** ** Firings and calls *)

(** C4.  When the signal fires [n] times on the page and the library is
    usable at each firing, the listener makes [n] calls. *)
Theorem C4_calls_equal_firings lib w n :
  (∀ k, k < n →
        is_Some (library_present (store (world (fire k (loaded_page lib w)))))) →
  length (calls (world (fire n (loaded_page lib w)))) = length (calls w) + n.
Proof. intros Hall. apply (fire_count lib); [apply loaded_script_page|assumption]. Qed.

Lemma C4_calls_equal_firings_witness :
  (∀ k, k < 2 →
        is_Some (library_present
                   (store (world (fire k (loaded_page stub_lib env_library))))))
  ∧ length (calls (world (fire 2 (loaded_page stub_lib env_library)))) =
      length (calls env_library) + 2.
Proof.
  assert (Hall : ∀ k, k < 2 →
            is_Some (library_present
                       (store (world (fire k (loaded_page stub_lib env_library)))))).
  { intros [|[|k]] Hk; [exists 2%positive; vm_compute; reflexivity ..|lia]. }
  split; [exact Hall|].
  apply (C4_calls_equal_firings stub_lib env_library 2 Hall).
Defined.

(** C5, amended.  The listener calls the entry point at most once at each
    firing of the signal, exactly once when the library is usable, each
    time with the configuration object; over [n] firings the calls are at
    most [n]. *)
Theorem C5_calls_bounded_by_firings lib w n :
  (∃ evs, calls (world (fire n (loaded_page lib w))) = calls w ++ evs
          ∧ length evs ≤ n
          ∧ Forall (λ ev, passed_config ev = Some (literal policy_config)) evs)
  ∧ calls (world (fire 1 (loaded_page lib w))) =
      calls w ++ match library_present (store w) with
                 | Some f => [init_event (store w) f]
                 | None => []
                 end.
Proof.
  split.
  - apply (fire_events lib (loaded_page lib w) n), loaded_script_page.
  - rewrite fire_S, (dispatch_calls lib) by apply loaded_script_page.
    rewrite decide_True by reflexivity. reflexivity.
Qed.

(** C5 as stated fails: the signal fired twice with the library usable
    gives two calls in one page lifecycle. *)
Lemma C5_counterexample_two_firings :
  calls env_library = []
  ∧ ¬ length (calls (world (fire 2 (loaded_page stub_lib env_library)))) ≤ 1.
Proof.
  split; [reflexivity|].
  intros H. vm_compute in H. lia.
Qed.

(** ** The configuration object *)

(** C6.  Any two runs of the listener with the library usable, in whatever
    worlds and against whatever libraries, pass objects with the same
    fields and the same values: those of the literal. *)
Theorem C6_config_same_every_run lib1 lib2 w1 w2 f1 f2 :
  library_present (store w1) = Some f1 →
  library_present (store w2) = Some f2 →
  ∃ ev1 ev2 cfg,
    calls (handler lib1 w1).1 = calls w1 ++ [ev1]
    ∧ calls (handler lib2 w2).1 = calls w2 ++ [ev2]
    ∧ passed_config ev1 = Some cfg
    ∧ passed_config ev2 = Some cfg
    ∧ cfg = literal policy_config.
Proof.
  intros H1 H2.
  exists (init_event (store w1) f1), (init_event (store w2) f2), (literal policy_config).
  rewrite !handler_calls, H1, H2, !passed_config_init_event. repeat split.
Qed.

Lemma C6_config_same_every_run_witness :
  library_present (store env_library) = Some 2%positive
  ∧ library_present (store env_function) = Some 7%positive
  ∧ ∃ ev1 ev2 cfg,
      calls (handler stub_lib env_library).1 = calls env_library ++ [ev1]
      ∧ calls (handler throwing_lib env_function).1 = calls env_function ++ [ev2]
      ∧ passed_config ev1 = Some cfg
      ∧ passed_config ev2 = Some cfg
      ∧ cfg = literal policy_config.
Proof.
  split; [vm_compute; reflexivity|]. split; [vm_compute; reflexivity|].
  apply (C6_config_same_every_run stub_lib throwing_lib env_library env_function
           2%positive 7%positive); vm_compute; reflexivity.
Defined.

(** C7.  With the library usable, one run of the listener constructs one
    object, at a reference that was not in use, and writes nothing else to
    the heap before the call; at the call each of the eight fields holds
    the value of the literal; and the store the listener ends in is the
    store that the library's [init] returned: the listener writes nothing
    after handing the object over. *)
Theorem C7_config_constructed_and_left_alone lib w f :
  library_present (store w) = Some f →
  let l := fresh (dom (heap (store w))) in
  ∃ ev,
    calls (handler lib w).1 = calls w ++ [ev]
    ∧ call_args ev = [VRef l]
    ∧ heap (store w) !! l = None
    ∧ call_heap ev = <[l := literal policy_config]> (heap (store w))
    ∧ policy_config.*1 =
        ["selector"; "menubar"; "plugins"; "toolbar"; "toolbar_mode"; "height";
         "branding"; "convert_urls"]
    ∧ Forall (λ kv, config_field ev kv.1 = Some kv.2) policy_config
    ∧ store (handler lib w).1 =
        (lib f (this_value ev) (call_args ev)
             {| globals := globals (store w); heap := call_heap ev |}).1.
Proof.
  intros Hp l. exists (init_event (store w) f).
  rewrite (handler_present lib w f Hp). cbn zeta.
  split; [reflexivity|]. split; [reflexivity|].
  split; [apply fresh_heap_None|]. split; [reflexivity|].
  split; [reflexivity|]. split; [|reflexivity].
  unfold config_field. rewrite passed_config_init_event.
  repeat constructor.
Qed.

Lemma C7_config_constructed_and_left_alone_witness :
  library_present (store env_library) = Some 2%positive
  ∧ ∃ ev,
      calls (handler stub_lib env_library).1 = calls env_library ++ [ev]
      ∧ call_args ev = [VRef 3%positive]
      ∧ heap (store (handler stub_lib env_library).1) !! 3%positive =
          Some (literal policy_config).
Proof.
  split; [vm_compute; reflexivity|].
  destruct (C7_config_constructed_and_left_alone stub_lib env_library 2%positive)
    as (ev & Hc & Ha & _ & Hh & _ & _ & Hs); [vm_compute; reflexivity|].
  exists ev. split; [exact Hc|]. split; [exact Ha|].
  rewrite Hs, Hh. apply lookup_insert_eq.
Defined.

(** C10.  In every call that the listener makes, over any number of
    firings, [branding] is [false] and [convert_urls] is [false]; and one
    run of the listener with the library usable makes such a call. *)
Theorem C10_branding_and_convert_urls_off lib w n :
  Forall (λ ev, config_field ev "branding" = Some (VBool false)
                ∧ config_field ev "convert_urls" = Some (VBool false))
         (drop (length (calls w)) (calls (world (fire n (loaded_page lib w)))))
  ∧ match library_present (store w) with
    | Some f =>
        ∃ ev, calls (handler lib w).1 = calls w ++ [ev]
              ∧ config_field ev "branding" = Some (VBool false)
              ∧ config_field ev "convert_urls" = Some (VBool false)
    | None => calls (handler lib w).1 = calls w
    end.
Proof.
  split.
  - destruct (fire_events lib (loaded_page lib w) n (loaded_script_page lib w))
      as (evs & Hc & _ & Hf).
    rewrite Hc. cbn [loaded_page policy_tinymce_init addEventListener world].
    rewrite drop_app_length.
    eapply Forall_impl; [exact Hf|].
    intros ev Hev. unfold config_field. rewrite Hev. split; by_evaluation.
  - rewrite handler_calls. destruct (library_present (store w)) as [f|].
    + eexists. split; [reflexivity|]. unfold config_field.
      rewrite passed_config_init_event. split; by_evaluation.
    + apply app_nil_r.
Qed.

(** ** The identifier defined, the library not usable *)

(** C9.  The guard tests only that the identifier is defined.  In every
    world where [typeof tinymce] is not "undefined" and yet [tinymce] is
    not an object with an [init] function, the listener goes past the
    guard, makes no call and ends in a [TypeError] that it does not
    catch. *)
Theorem C9_defined_but_unusable_throws lib w :
  ¬ identifier_absent w →
  library_present (store w) = None →
  (handler lib w).2 = Throws TypeError ∧ calls (handler lib w).1 = calls w.
Proof.
  rewrite identifier_absent_iff, not_false_iff_true.
  apply handler_unusable.
Qed.

Lemma C9_defined_but_unusable_throws_witness :
  (¬ identifier_absent env_null
   ∧ library_present (store env_null) = None
   ∧ (handler stub_lib env_null).2 = Throws TypeError
   ∧ calls (handler stub_lib env_null).1 = calls env_null)
  ∧ (¬ identifier_absent env_no_init
     ∧ library_present (store env_no_init) = None
     ∧ (handler stub_lib env_no_init).2 = Throws TypeError
     ∧ calls (handler stub_lib env_no_init).1 = calls env_no_init).
Proof.
  split.
  - split; [vm_compute; intros [=]|]. split; [reflexivity|].
    apply (C9_defined_but_unusable_throws stub_lib env_null);
      [vm_compute; intros [=]|reflexivity].
  - split; [vm_compute; intros [=]|]. split; [reflexivity|].
    apply (C9_defined_but_unusable_throws stub_lib env_no_init);
      [vm_compute; intros [=]|reflexivity].
Defined.

(** ** The state machine *)

(** C8.  On a page that starts with no call made, the initializer has the
    two states [NotInitialized] and [Initialized]; it starts in the first
    and stays there as long as the signal has not fired; a dispatch takes
    it from the first to the second exactly when the event is the
    content-loaded signal and the library is usable; and from the second no
    dispatch takes it back. *)
Theorem C8_two_state_machine lib w :
  calls w = [] →
  (∀ s : InitState, s = NotInitialized ∨ s = Initialized)
  ∧ init_state (loaded_page lib w) = NotInitialized
  ∧ (∀ tys, "DOMContentLoaded" ∉ tys →
            init_state (run_events tys (loaded_page lib w)) = NotInitialized)
  ∧ (∀ tys ty,
       let p := run_events tys (loaded_page lib w) in
       (init_state p = NotInitialized →
        (init_state (dispatchEvent ty p) = Initialized
         ↔ ty = "DOMContentLoaded" ∧ is_Some (library_present (store (world p)))))
       ∧ (init_state p = Initialized →
          init_state (dispatchEvent ty p) = Initialized)).
Proof.
  intros Hw.
  assert (H0 : init_state (loaded_page lib w) = NotInitialized).
  { unfold init_state. cbn. rewrite Hw. reflexivity. }
  split; [intros []; auto|]. split; [exact H0|]. split.
  { intros tys Hnot.
    rewrite (run_events_other lib) by (apply loaded_script_page || exact Hnot).
    exact H0. }
  intros tys ty p.
  assert (Hp : script_page lib p)
    by apply run_events_script_page, loaded_script_page.
  unfold init_state. rewrite (dispatch_calls lib p ty Hp).
  destruct (calls (world p)) as [|ev evs]; split; try discriminate; try reflexivity.
  intros _. cbn [app]. case_decide as Hty.
  - destruct (library_present (store (world p))) as [f|]; split.
    + intros _. split; [exact Hty|eexists; reflexivity].
    + reflexivity.
    + discriminate.
    + intros [_ [f Hf]]. discriminate.
  - split; [discriminate|]. intros [Heq _]. contradiction.
Qed.

Lemma C8_two_state_machine_witness :
  calls env_library = []
  ∧ init_state (loaded_page stub_lib env_library) = NotInitialized
  ∧ init_state (dispatchEvent "click" (loaded_page stub_lib env_library)) =
      NotInitialized
  ∧ init_state (dispatchEvent "DOMContentLoaded" (loaded_page stub_lib env_library)) =
      Initialized.
Proof.
  split; [reflexivity|].
  destruct (C8_two_state_machine stub_lib env_library) as (_ & H0 & Hquiet & Hstep);
    [reflexivity|].
  split; [exact H0|]. split.
  - apply (Hquiet ["click"]). intros Hin%list_elem_of_singleton. discriminate.
  - destruct (Hstep [] "DOMContentLoaded") as [Hfwd _].
    apply (Hfwd H0). split; [reflexivity|].
    exists 2%positive. vm_compute. reflexivity.
Defined.

(** * Further properties of the script *)

(** ** Allocation of the configuration object and the tests on [tinymce] *)

Lemma typeof_alloc h v o :
  callable o = false → typeof (<[fresh (dom h) := o]> h) v = typeof h v.
Proof.
  intros Ho. destruct v; simpl; try reflexivity.
  destruct (decide (l = fresh (dom h))) as [->|Hne].
  - rewrite lookup_insert_eq, fresh_heap_None, Ho. reflexivity.
  - rewrite lookup_insert_ne by congruence. reflexivity.
Qed.

Lemma identifier_present_alloc s :
  identifier_present (store_at_call s) = identifier_present s.
Proof.
  unfold identifier_present, store_at_call. cbn [globals heap].
  destruct (globals s !! "tinymce") as [v|]; [|reflexivity].
  rewrite typeof_alloc by reflexivity. reflexivity.
Qed.

Lemma library_present_alloc s :
  library_present (store_at_call s) = library_present s.
Proof.
  unfold library_present, store_at_call. cbn [globals heap].
  destruct (globals s !! "tinymce") as [[| | | | | | |t]|]; try reflexivity.
  destruct (decide (t = fresh (dom (heap s)))) as [->|Hne].
  - rewrite lookup_insert_eq, fresh_heap_None. reflexivity.
  - rewrite lookup_insert_ne by congruence.
    destruct (heap s !! t) as [o|]; [|reflexivity].
    destruct (props o !! "init") as [v|]; [|reflexivity].
    simpl. apply is_callable_alloc. reflexivity.
Qed.

(** The store after a run that makes no call. *)
Lemma handler_no_call_store lib w :
  library_present (store w) = None →
  store (handler lib w).1 = store_without_call (store w).
Proof.
  unfold library_present, store_without_call, store_at_call.
  unfold handler, bind, typeof_ident, read_ident, get_member, new_object, call,
    ret, throw.
  destruct (globals (store w) !! "tinymce") as [v|] eqn:Hg; [|reflexivity].
  destruct v as [| | | | | | |t];
    try (intros _; cbn -[fresh]; rewrite ?Hg; reflexivity).
  intros Hlib.
  destruct (typeof (heap (store w)) (VRef t) =? "undefined")%string eqn:Hty.
  { simpl in Hty. destruct (heap (store w) !! t) as [o|];
      [destruct (callable o)|]; discriminate. }
  cbn beta iota. rewrite Hg. cbn beta iota.
  destruct (heap (store w) !! t) as [o|] eqn:Ht; [|reflexivity].
  cbn beta iota delta [store heap globals calls].
  rewrite is_callable_alloc by reflexivity.
  destruct (props o !! "init") as [v|] eqn:Hi; [|reflexivity].
  simpl in Hlib. simpl. rewrite Hlib. reflexivity.
Qed.

Lemma store_without_call_present s :
  identifier_present (store_without_call s) = identifier_present s
  ∧ library_present (store_without_call s) = library_present s.
Proof.
  unfold store_without_call.
  destruct (globals s !! "tinymce") as [[| | | | | | |t]|]; split;
    auto using identifier_present_alloc, library_present_alloc.
Qed.

Lemma run_listener_reported p cb :
  reported (run_listener p cb) =
    reported p ++ match (cb (world p)).2 with
                  | Returns _ => []
                  | Throws e => [e]
                  end.
Proof.
  unfold run_listener. destruct (cb (world p)) as [w' [v|e]]; simpl;
    [rewrite app_nil_r|]; reflexivity.
Qed.

Lemma fire_loaded_S lib w n :
  fire (S n) (loaded_page lib w) =
    run_listener (fire n (loaded_page lib w)) (handler lib).
Proof.
  rewrite fire_S, (dispatch_script lib)
    by apply fire_script_page, loaded_script_page.
  rewrite decide_True by reflexivity. reflexivity.
Qed.

(** ** What becomes of the library's result *)

(** X1.  With the library usable, the listener passes on what [init]
    does: an exception of [init] leaves the listener as it was thrown and
    the dispatch reports it; a value returned by [init] is dropped and the
    listener returns [undefined]; the call is on the trace in both
    cases. *)
Theorem library_outcome_passed_on lib w f :
  library_present (store w) = Some f →
  let ev := init_event (store w) f in
  let r := (lib f (this_value ev) (call_args ev) (store_at_call (store w))).2 in
  (handler lib w).2 =
    match r with Returns _ => Returns VUndefined | Throws e => Throws e end
  ∧ reported (dispatchEvent "DOMContentLoaded" (loaded_page lib w)) =
      match r with Returns _ => [] | Throws e => [e] end
  ∧ length (calls (handler lib w).1) = length (calls w) + 1.
Proof.
  intros Hp ev r. subst ev r.
  change (dispatchEvent "DOMContentLoaded" (loaded_page lib w))
    with (fire 1 (loaded_page lib w)).
  rewrite fire_loaded_S, run_listener_reported.
  change (world (fire 0 (loaded_page lib w))) with w.
  change (reported (fire 0 (loaded_page lib w))) with (@nil Error).
  rewrite (handler_present lib w f Hp). cbn zeta. cbn [fst snd calls].
  rewrite length_app. simpl.
  destruct (lib f _ _ _) as [s' [v|e]]; repeat split; reflexivity.
Qed.

Lemma library_outcome_passed_on_witness :
  library_present (store env_library) = Some 2%positive
  ∧ (handler throwing_lib env_library).2 = Throws (Thrown (VStr "init failed"))
  ∧ reported (dispatchEvent "DOMContentLoaded" (loaded_page throwing_lib env_library)) =
      [Thrown (VStr "init failed")]
  ∧ length (calls (handler throwing_lib env_library).1) = length (calls env_library) + 1.
Proof.
  split; [by_evaluation|].
  apply (library_outcome_passed_on throwing_lib env_library 2%positive).
  by_evaluation.
Defined.

(** ** Page lifecycles *)

Lemma fire_keeps_library lib w n :
  keeps_library lib →
  is_Some (library_present (store w)) →
  is_Some (library_present (store (world (fire n (loaded_page lib w))))).
Proof.
  intros Hk Hw. induction n as [|n [f Hf]]; [exact Hw|].
  rewrite fire_loaded_S, run_listener_world, (handler_present _ _ _ Hf).
  cbn zeta. cbn [fst store]. apply Hk.
  rewrite library_present_alloc, Hf. eexists; reflexivity.
Qed.

(** X2.  Against a library that keeps itself usable, it is enough that the
    library is usable when the page starts: [n] firings of the signal are
    [n] calls, and the library is usable after them. *)
Theorem stable_library_called_every_firing lib w n :
  keeps_library lib →
  is_Some (library_present (store w)) →
  length (calls (world (fire n (loaded_page lib w)))) = length (calls w) + n
  ∧ is_Some (library_present (store (world (fire n (loaded_page lib w))))).
Proof.
  intros Hk Hw. split; [|apply fire_keeps_library; assumption].
  apply (fire_count lib); [apply loaded_script_page|].
  intros k _. apply fire_keeps_library; assumption.
Qed.

Lemma stable_library_called_every_firing_witness :
  keeps_library stub_lib
  ∧ is_Some (library_present (store env_library))
  ∧ length (calls (world (fire 3 (loaded_page stub_lib env_library)))) =
      length (calls env_library) + 3
  ∧ is_Some (library_present (store (world (fire 3 (loaded_page stub_lib env_library))))).
Proof.
  assert (Hk : keeps_library stub_lib) by (intros f this args s Hs; exact Hs).
  assert (Hw : is_Some (library_present (store env_library)))
    by (exists 2%positive; by_evaluation).
  split; [exact Hk|]. split; [exact Hw|].
  apply (stable_library_called_every_firing stub_lib env_library 3 Hk Hw).
Defined.

(** X3.  Where [tinymce] is defined and is no usable library, the listener
    fails at every firing and never calls anything: after [n] firings the
    trace is as it was and the dispatches have reported [n] times a
    [TypeError]. *)
Theorem unusable_library_fails_every_firing lib w n :
  ¬ identifier_absent w →
  library_present (store w) = None →
  calls (world (fire n (loaded_page lib w))) = calls w
  ∧ reported (fire n (loaded_page lib w)) = replicate n TypeError.
Proof.
  rewrite identifier_absent_iff, not_false_iff_true. intros Hid Hlib.
  cut (identifier_present (store (world (fire n (loaded_page lib w)))) = true
       ∧ library_present (store (world (fire n (loaded_page lib w)))) = None
       ∧ calls (world (fire n (loaded_page lib w))) = calls w
       ∧ reported (fire n (loaded_page lib w)) = replicate n TypeError).
  { intros (_ & _ & Hc & Hr). split; assumption. }
  induction n as [|n (Hid' & Hlib' & Hc & Hr)]; [repeat split; assumption|].
  rewrite fire_loaded_S, run_listener_world, run_listener_reported.
  destruct (handler_unusable lib _ Hid' Hlib') as [Hout Hcalls].
  destruct (store_without_call_present (store (world (fire n (loaded_page lib w)))))
    as [Hi Hl].
  rewrite (handler_no_call_store lib _ Hlib'), Hi, Hl, Hout, Hcalls, Hr.
  rewrite replicate_S_end. repeat split; assumption.
Qed.

Lemma unusable_library_fails_every_firing_witness :
  ¬ identifier_absent env_no_init
  ∧ library_present (store env_no_init) = None
  ∧ calls (world (fire 2 (loaded_page stub_lib env_no_init))) = calls env_no_init
  ∧ reported (fire 2 (loaded_page stub_lib env_no_init)) = replicate 2 TypeError.
Proof.
  split; [vm_compute; intros [=]|]. split; [reflexivity|].
  apply (unusable_library_fails_every_firing stub_lib env_no_init 2);
    [vm_compute; intros [=]|reflexivity].
Defined.

(** X5.  Over any run of events on the page, of whatever types and in
    whatever order, the calls made are at most as many as the content-loaded
    signals among the events, and each passes the configuration object. *)
Theorem calls_bounded_by_signals lib w tys :
  ∃ evs, calls (world (run_events tys (loaded_page lib w))) = calls w ++ evs
         ∧ length evs ≤ signal_count tys
         ∧ Forall (λ ev, passed_config ev = Some (literal policy_config)) evs.
Proof.
  induction tys as [|ty tys (evs & Hc & Hl & Hf)] using rev_ind.
  - exists []. rewrite app_nil_r. repeat split; [simpl; lia|constructor].
  - rewrite run_events_snoc, (dispatch_calls lib)
      by apply run_events_script_page, loaded_script_page.
    rewrite Hc, <- app_assoc. eexists. split; [reflexivity|].
    unfold signal_count in *. rewrite filter_app, filter_cons, filter_nil.
    case_decide.
    + destruct (library_present _) as [f|].
      * rewrite !length_app, Forall_app, Forall_singleton. simpl.
        repeat split; [lia|assumption|apply passed_config_init_event].
      * rewrite app_nil_r, length_app. repeat split; [lia|assumption].
    + rewrite !app_nil_r. repeat split; assumption.
Qed.

(** ** The call and the store *)

(** X4.  The entry point is called as a method of [tinymce]: the [this]
    value of the call is the object that [tinymce] is bound to, the one
    argument is a reference to a new object, which is neither that object
    nor the function called nor itself a function, and the two objects of
    the library are at the call as they were. *)
Theorem init_called_as_method_of_tinymce lib w f :
  library_present (store w) = Some f →
  ∃ t l ev,
    globals (store w) !! "tinymce" = Some (VRef t)
    ∧ calls (handler lib w).1 = calls w ++ [ev]
    ∧ callee ev = f
    ∧ this_value ev = VRef t
    ∧ call_args ev = [VRef l]
    ∧ l ≠ t ∧ l ≠ f
    ∧ call_heap ev !! t = heap (store w) !! t
    ∧ call_heap ev !! f = heap (store w) !! f
    ∧ is_callable (call_heap ev) (VRef l) = None.
Proof.
  intros Hp. destruct (library_present_Some _ _ Hp) as (t & o & Hg & Ht & Hi & Hc).
  destruct (is_callable_Some _ _ _ Hc) as (_ & fo & Hf & _).
  pose proof (fresh_heap_None (heap (store w))) as Hfresh.
  assert (Hlt : fresh (dom (heap (store w))) ≠ t) by congruence.
  assert (Hlf : fresh (dom (heap (store w))) ≠ f) by congruence.
  exists t, (fresh (dom (heap (store w)))), (init_event (store w) f).
  rewrite handler_calls, Hp. unfold init_event. cbn [callee this_value call_args call_heap].
  rewrite Hg, !lookup_insert_ne by assumption.
  repeat split; try assumption.
  simpl. rewrite lookup_insert_eq. reflexivity.
Qed.

Lemma init_called_as_method_of_tinymce_witness :
  library_present (store env_function) = Some 7%positive
  ∧ ∃ t l ev,
      globals (store env_function) !! "tinymce" = Some (VRef t)
      ∧ calls (handler stub_lib env_function).1 = calls env_function ++ [ev]
      ∧ callee ev = 7%positive
      ∧ this_value ev = VRef t
      ∧ call_args ev = [VRef l]
      ∧ l ≠ t ∧ l ≠ 7%positive
      ∧ call_heap ev !! t = heap (store env_function) !! t
      ∧ call_heap ev !! 7%positive = heap (store env_function) !! 7%positive
      ∧ is_callable (call_heap ev) (VRef l) = None.
Proof.
  split; [by_evaluation|].
  apply (init_called_as_method_of_tinymce stub_lib env_function 7%positive).
  by_evaluation.
Defined.

(** X6.  A run of the listener that makes no call binds and rebinds no
    global, changes and removes no object of the heap, and adds to the heap
    at most the object of the literal. *)
Theorem no_call_leaves_store_alone lib w :
  library_present (store w) = None →
  calls (handler lib w).1 = calls w
  ∧ globals (store (handler lib w).1) = globals (store w)
  ∧ heap (store w) ⊆ heap (store (handler lib w).1)
  ∧ ∀ l o, heap (store (handler lib w).1) !! l = Some o →
           heap (store w) !! l = Some o ∨ o = literal policy_config.
Proof.
  intros Hlib. rewrite handler_calls, Hlib, app_nil_r.
  rewrite (handler_no_call_store lib w Hlib).
  assert (Hsame : globals (store w) = globals (store w)
                  ∧ heap (store w) ⊆ heap (store w)
                  ∧ ∀ l o, heap (store w) !! l = Some o →
                           heap (store w) !! l = Some o ∨ o = literal policy_config)
    by (repeat split; [reflexivity|]; auto).
  assert (Hnew : globals (store_at_call (store w)) = globals (store w)
                 ∧ heap (store w) ⊆ heap (store_at_call (store w))
                 ∧ ∀ l o, heap (store_at_call (store w)) !! l = Some o →
                          heap (store w) !! l = Some o ∨ o = literal policy_config).
  { unfold store_at_call. cbn [globals heap]. repeat split.
    - apply insert_subseteq, fresh_heap_None.
    - intros l o. rewrite lookup_insert. case_decide; [|auto].
      intros [= <-]. right. reflexivity. }
  split; [reflexivity|]. unfold store_without_call.
  destruct (globals (store w) !! "tinymce") as [[| | | | | | |t]|]; assumption.
Qed.

Lemma no_call_leaves_store_alone_witness :
  library_present (store env_no_init) = None
  ∧ calls (handler stub_lib env_no_init).1 = calls env_no_init
  ∧ globals (store (handler stub_lib env_no_init).1) = globals (store env_no_init)
  ∧ heap (store env_no_init) ⊆ heap (store (handler stub_lib env_no_init).1)
  ∧ ∀ l o, heap (store (handler stub_lib env_no_init).1) !! l = Some o →
           heap (store env_no_init) !! l = Some o ∨ o = literal policy_config.
Proof.
  split; [reflexivity|].
  apply (no_call_leaves_store_alone stub_lib env_no_init). reflexivity.
Defined.

(** ** The script on a page that has other listeners *)


Lemma listeners_for_script lib p ty :
  listeners_for ty (policy_tinymce_init lib p) =
    listeners_for ty p ++
      (if decide (ty = "DOMContentLoaded") then [handler lib] else []).
Proof.
  unfold listeners_for, policy_tinymce_init, addEventListener. cbn [listeners].
  rewrite filter_app, fmap_app, filter_cons, filter_nil. cbn [fst].
  destruct (decide ("DOMContentLoaded" = ty)) as [<-|Hne].
  - rewrite decide_True by reflexivity. reflexivity.
  - rewrite decide_False by congruence. reflexivity.
Qed.


(** ** The script included more than once *)

Lemma listeners_for_script_included k lib w :
  listeners_for "DOMContentLoaded" (script_included k lib w) =
    replicate k (handler lib).
Proof.
  induction k as [|k IH]; [reflexivity|].
  change (script_included (S k) lib w)
    with (policy_tinymce_init lib (script_included k lib w)).
  rewrite listeners_for_script, IH, decide_True by reflexivity.
  symmetry. apply replicate_S_end.
Qed.

Lemma foldl_handler_count lib k p :
  keeps_library lib →
  is_Some (library_present (store (world p))) →
  length (calls (world (foldl run_listener p (replicate k (handler lib))))) =
    length (calls (world p)) + k.
Proof.
  intros Hk. revert p. induction k as [|k IH]; intros p [f Hf]; [simpl; lia|].
  cbn [replicate foldl]. rewrite IH.
  - rewrite run_listener_world, handler_calls, Hf, length_app. simpl. lia.
  - rewrite run_listener_world, (handler_present _ _ _ Hf). cbn zeta.
    cbn [fst store]. apply Hk. rewrite library_present_alloc, Hf.
    eexists; reflexivity.
Qed.

(** X8.  Nothing in the script guards against its being included twice:
    on a page where it has run [k] times, one content-loaded signal is [k]
    calls of the entry point, against a library that keeps itself
    usable. *)
Theorem script_included_k_times_calls_k_times lib w k :
  keeps_library lib →
  is_Some (library_present (store w)) →
  length (calls (world (dispatchEvent "DOMContentLoaded" (script_included k lib w)))) =
    length (calls w) + k.
Proof.
  intros Hk Hw. unfold dispatchEvent.
  rewrite listeners_for_script_included, (foldl_handler_count lib k _ Hk).
  - f_equal. induction k as [|k IH]; [reflexivity|exact IH].
  - induction k as [|k IH]; [exact Hw|exact IH].
Qed.

Lemma script_included_k_times_calls_k_times_witness :
  keeps_library stub_lib
  ∧ is_Some (library_present (store env_library))
  ∧ length (calls (world (dispatchEvent "DOMContentLoaded"
                            (script_included 2 stub_lib env_library)))) =
      length (calls env_library) + 2.
Proof.
  assert (Hk : keeps_library stub_lib) by (intros f this args s Hs; exact Hs).
  assert (Hw : is_Some (library_present (store env_library)))
    by (exists 2%positive; by_evaluation).
  split; [exact Hk|]. split; [exact Hw|].
  apply (script_included_k_times_calls_k_times stub_lib env_library 2 Hk Hw).
Defined.
